(** * The rqlite client adapter ([src/bun/rqliteDatabase.ts])

    A shallow embedding of the two classes of the module, [RqliteDatabase]
    and [Statements], and of the part of the JavaScript host they rely on
    ([fetch], [JSON.stringify], [Response.json], [Object.values],
    [Array.prototype.map], property reads), followed by the properties of
    the adapter's contract. *)

From Stdlib Require Import ZArith String List Bool Lia.
From stdpp Require Import base option list strings pretty.

Set Warnings "-register-all".

Local Open Scope Z_scope.
Local Open Scope string_scope.
Local Open Scope list_scope.

(** ** JavaScript values *)

(** The values that flow through the adapter: what [response.json()] can
    produce (JSON documents), the parameters of a statement, and
    [undefined], which property reads produce.  Numbers are the integers
    (row counts and row identifiers).  The members of an object are listed
    in the order in which they were added to it, which for a parsed
    document is the order of its text; member names are unique. *)
Inductive JsValue : Type :=
| JUndefined
| JNull
| JBool (b : bool)
| JNumber (n : Z)
| JString (s : string)
| JArray (items : list JsValue)
| JObject (members : list (string * JsValue)).

(** What a [throw] or a rejected promise carries: the two errors raised by
    the evaluation of the adapter's own code, and the reason of a promise
    that the host rejected, kept as the host produced it. *)
Inductive Thrown : Type :=
| TypeError
| ReferenceError (ident : string)
| Rejection (reason : JsValue).

(** The outcome of evaluating an expression or of awaiting a promise. *)
Inductive Completion (A : Type) : Type :=
| Normal (a : A)
| Abrupt (t : Thrown).
Arguments Normal {A} a.
Arguments Abrupt {A} t.

#[global] Instance Completion_ret : MRet Completion := fun A a => Normal a.
#[global] Instance Completion_bind : MBind Completion := fun A B k c =>
  match c with
  | Normal a => k a
  | Abrupt t => Abrupt t
  end.

(** Own member [name] of an object literal. *)
Fixpoint own_member (name : string) (members : list (string * JsValue)) : option JsValue :=
  match members with
  | [] => None
  | (k, v) :: rest => if String.eqb k name then Some v else own_member name rest
  end.

(** [v.rows] *)
Definition read_rows (v : JsValue) : Completion JsValue :=
  match v with
  | JUndefined | JNull => Abrupt TypeError
  | JObject members => Normal (default JUndefined (own_member "rows" members))
  | JBool _ | JNumber _ | JString _ | JArray _ => Normal JUndefined
  end.

(** [v.length] *)
Definition read_length (v : JsValue) : Completion JsValue :=
  match v with
  | JUndefined | JNull => Abrupt TypeError
  | JString s => Normal (JNumber (Z.of_nat (String.length s)))
  | JArray items => Normal (JNumber (Z.of_nat (length items)))
  | JObject members => Normal (default JUndefined (own_member "length" members))
  | JBool _ | JNumber _ => Normal JUndefined
  end.

(** [v[0]] *)
Definition read_index0 (v : JsValue) : Completion JsValue :=
  match v with
  | JUndefined | JNull => Abrupt TypeError
  | JString EmptyString => Normal JUndefined
  | JString (String c _) => Normal (JString (String c EmptyString))
  | JArray items => Normal (hd JUndefined items)
  | JObject members => Normal (default JUndefined (own_member "0" members))
  | JBool _ | JNumber _ => Normal JUndefined
  end.

Fixpoint characters (s : string) : list JsValue :=
  match s with
  | EmptyString => []
  | String c rest => JString (String c EmptyString) :: characters rest
  end.

Definition digit_value (c : Ascii.ascii) : option N :=
  let n := Ascii.N_of_ascii c in
  if ((48 <=? n) && (n <=? 57))%N then Some (n - 48)%N else None.

Fixpoint digits_value (acc : N) (s : string) : option N :=
  match s with
  | EmptyString => Some acc
  | String c rest =>
      match digit_value c with
      | Some d => digits_value (10 * acc + d)%N rest
      | None => None
      end
  end.

(** A member name that is an array index: the canonical decimal text of an
    integer from 0 to 2^32 - 2, without sign or leading zero. *)
Definition array_index (k : string) : option N :=
  match k with
  | EmptyString => None
  | String c rest =>
      if (Ascii.N_of_ascii c =? 48)%N && negb (String.eqb rest EmptyString) then None
      else
        match digits_value 0%N k with
        | Some n => if (n <? 2 ^ 32 - 1)%N then Some n else None
        | None => None
        end
  end.

Fixpoint insert_indexed (n : N) (v : JsValue) (sorted : list (N * JsValue))
  : list (N * JsValue) :=
  match sorted with
  | [] => [(n, v)]
  | (m, x) :: rest =>
      if (n <? m)%N then (n, v) :: sorted else (m, x) :: insert_indexed n v rest
  end.

(** The members named by an array index, by ascending index. *)
Fixpoint indexed_members (members : list (string * JsValue)) : list (N * JsValue) :=
  match members with
  | [] => []
  | (k, v) :: rest =>
      match array_index k with
      | Some n => insert_indexed n v (indexed_members rest)
      | None => indexed_members rest
      end
  end.

(** The other members, in the order in which they were added. *)
Fixpoint named_members (members : list (string * JsValue)) : list (string * JsValue) :=
  match members with
  | [] => []
  | (k, v) :: rest =>
      match array_index k with
      | Some _ => named_members rest
      | None => (k, v) :: named_members rest
      end
  end.

(** The values of the own properties of an object in the order in which the
    host enumerates them: the members named by an array index first, by
    ascending index, then the others in the order in which they were
    added. *)
Definition own_values (members : list (string * JsValue)) : list JsValue :=
  map snd (indexed_members members) ++ map snd (named_members members).

(** [Object.values(v)] *)
Definition Object_values (v : JsValue) : Completion (list JsValue) :=
  match v with
  | JUndefined | JNull => Abrupt TypeError
  | JBool _ | JNumber _ => Normal []
  | JString s => Normal (characters s)
  | JArray items => Normal items
  | JObject members => Normal (own_values members)
  end.

(** The callback is applied to the elements from left to right; the first
    one that throws ends the traversal. *)
Fixpoint map_elements (f : JsValue -> Completion JsValue) (items : list JsValue)
  : Completion (list JsValue) :=
  match items with
  | [] => Normal []
  | x :: rest =>
      y ← f x;
      ys ← map_elements f rest;
      mret (y :: ys)
  end.

(** [v.map(f)]: only an array has a [map] method; on [undefined] and [null]
    the property read throws, on anything else the call of a non-function
    does. *)
Definition Array_map (f : JsValue -> Completion JsValue) (v : JsValue) : Completion JsValue :=
  match v with
  | JArray items => items' ← map_elements f items; mret (JArray items')
  | _ => Abrupt TypeError
  end.

(** ** The host: network and built-ins *)

Record Request : Type := mkRequest {
  url : string;
  method : string;
  headers : list (string * string);
  body : string
}.

(** A response as the adapter sees it: its status line, which the adapter
    never reads, and the outcome of [response.json()]. *)
Record Response : Type := mkResponse {
  status : Z;
  json : Completion JsValue
}.

Definition ok (r : Response) : bool := ((200 <=? status r) && (status r <? 300))%Z.

Inductive FetchOutcome : Type :=
| Rejected (reason : JsValue)
| Responded (r : Response).

(** Everything the adapter obtains from its environment.  [respond] is the
    remote end together with the transport: given the requests issued so
    far and the current one, the promise returned by [fetch] is rejected or
    fulfilled with a response.  [relational_gt_zero] is the host's
    evaluation of [v > 0] for the operands whose conversion to a number
    goes through a string (strings, arrays, objects). *)
Record Host : Type := mkHost {
  respond : list Request -> Request -> FetchOutcome;
  JSON_stringify : JsValue -> string;
  relational_gt_zero : JsValue -> Completion bool
}.

(** ** Objects of the module *)

(** Instance fields of class [RqliteDatabase]. *)
Record RqliteDatabase_obj : Type := mkRqliteDatabase {
  baseUrl : string
}.

(** Instance fields of class [Statements].  The database is kept by value:
    no method assigns [baseUrl] after construction. *)
Record Statements_obj : Type := mkStatements {
  db : RqliteDatabase_obj;
  sql : string;
  params : list JsValue
}.

(** A reference to a [Statements] instance. *)
Abbreviation loc := nat (only parsing).

(** The state a call runs in: the host, the requests handed to [fetch] so
    far (oldest first), and the [Statements] instances allocated so far. *)
Record World : Type := mkWorld {
  host : Host;
  sent : list Request;
  heap : list Statements_obj
}.

(** ** Computations *)

(** A method body: it reads and updates the world and completes normally
    or abruptly.  [await] of a rejected promise and [throw] both give an
    abrupt completion, which skips the rest of the body. *)
Definition M (A : Type) : Type := World -> Completion A * World.

#[global] Instance M_ret : MRet M := fun A a w => (Normal a, w).
#[global] Instance M_bind : MBind M := fun A B k m w =>
  match m w with
  | (Normal a, w') => k a w'
  | (Abrupt t, w') => (Abrupt t, w')
  end.

Definition throw {A : Type} (t : Thrown) : M A := fun w => (Abrupt t, w).

Definition lift {A : Type} (c : Completion A) : M A := fun w => (c, w).

Definition the_host : M Host := fun w => (Normal (host w), w).

(** [fetch(url, init)]: the request is handed to the host, which settles
    the returned promise. *)
Definition fetch (req : Request) : M Response := fun w =>
  let w' := mkWorld (host w) (sent w ++ [req]) (heap w) in
  match respond (host w) (sent w) req with
  | Rejected reason => (Abrupt (Rejection reason), w')
  | Responded r => (Normal r, w')
  end.

(** [response.json()] *)
Definition Response_json (r : Response) : M JsValue := lift (json r).

(** [v > 0] *)
Definition gt_zero (h : Host) (v : JsValue) : Completion bool :=
  match v with
  | JUndefined | JNull => Normal false
  | JBool b => Normal b
  | JNumber n => Normal (0 <? n)%Z
  | JString _ | JArray _ | JObject _ => relational_gt_zero h v
  end.

(** ** Class [RqliteDatabase] *)

(** [constructor(baseUrl)] *)
Definition RqliteDatabase_constructor (baseUrl : string) : RqliteDatabase_obj :=
  mkRqliteDatabase baseUrl.

(** The object literal [{ sql, params }]. *)
Definition query_document (sql : string) (params : list JsValue) : JsValue :=
  JObject [("sql", JString sql); ("params", JArray params)].

(** [_executeQuery(sql, params)] *)
Definition _executeQuery (this : RqliteDatabase_obj) (sql : string) (params : list JsValue)
  : M JsValue :=
  h ← the_host;
  response ← fetch {| url := baseUrl this +:+ "/db/execute";
                      method := "POST";
                      headers := [("Content-Type", "application/json")];
                      body := JSON_stringify h (query_document sql params) |};
  Response_json response.

(** [run(sql, params = [])]; a call that leaves [params] out is
    [RqliteDatabase_run this sql []], and so for [get] and [query]. *)
Definition RqliteDatabase_run (this : RqliteDatabase_obj) (sql : string) (params : list JsValue)
  : M JsValue :=
  result ← _executeQuery this sql params;
  mret result.

(** [query(sql, params = [])] *)
Definition RqliteDatabase_query (this : RqliteDatabase_obj) (sql : string) (params : list JsValue)
  : M JsValue :=
  result ← _executeQuery this sql params;
  lift (read_rows result).

(** [get(sql, params = [])] *)
Definition RqliteDatabase_get (this : RqliteDatabase_obj) (sql : string) (params : list JsValue)
  : M JsValue :=
  rows ← RqliteDatabase_query this sql params;
  h ← the_host;
  lift (len ← read_length rows;
        positive ← gt_zero h len;
        if positive : bool then read_index0 rows else mret JNull).

(** ** Class [Statements] *)

Definition allocate (o : Statements_obj) : M loc := fun w =>
  (Normal (length (heap w)), mkWorld (host w) (sent w) (heap w ++ [o])).

(** A read of a field of [this]; a receiver that is no [Statements]
    instance has no such field to go through. *)
Definition read_this (this : loc) : M Statements_obj := fun w =>
  match heap w !! this with
  | Some o => (Normal o, w)
  | None => (Abrupt TypeError, w)
  end.

Definition write_this (this : loc) (o : Statements_obj) : M unit := fun w =>
  (Normal tt, mkWorld (host w) (sent w) (<[this := o]> (heap w))).

(** [constructor(db, sql)] *)
Definition Statements_constructor (db : RqliteDatabase_obj) (sql : string) : M loc :=
  allocate {| db := db; sql := sql; params := [] |}.

(** [bind(...params)] *)
Definition Statements_bind (this : loc) (params : list JsValue) : M loc :=
  o ← read_this this;
  write_this this {| db := db o; sql := sql o; params := params |};;
  mret this.

(** [all()] *)
Definition Statements_all (this : loc) : M JsValue :=
  o ← read_this this;
  RqliteDatabase_query (db o) (sql o) (params o).

(** [get()] *)
Definition Statements_get (this : loc) : M JsValue :=
  o ← read_this this;
  RqliteDatabase_get (db o) (sql o) (params o).

(** [run()] *)
Definition Statements_run (this : loc) : M JsValue :=
  o ← read_this this;
  RqliteDatabase_run (db o) (sql o) (params o).

(** [row => Object.values(row)[0]] *)
Definition first_value (row : JsValue) : Completion JsValue :=
  vs ← Object_values row;
  mret (hd JUndefined vs).

(** [values()] *)
Definition Statements_values (this : loc) : M JsValue :=
  rows ← Statements_all this;
  lift (Array_map first_value rows).

(** [finalize()] *)
Definition Statements_finalize (this : loc) : M loc :=
  o ← read_this this;
  write_this this {| db := db o; sql := EmptyString; params := params o |};;
  o' ← read_this this;
  write_this this {| db := db o'; sql := sql o'; params := [] |};;
  mret this.

(** [toString()] *)
Definition Statements_toString (this : loc) : M string :=
  o ← read_this this;
  mret (sql o).

(** ** [prepare] and the names in scope *)

(** The classes the module declares.  These are the class names in scope
    in [prepare]: the module imports nothing, and the global object of the
    hosts the adapter runs on has no property named [Statement]. *)
Inductive ClassDecl : Type :=
| Class_RqliteDatabase
| Class_Statements.

Definition module_scope : list (string * ClassDecl) :=
  [("RqliteDatabase", Class_RqliteDatabase); ("Statements", Class_Statements)].

Fixpoint binding (ident : string) (scope : list (string * ClassDecl)) : option ClassDecl :=
  match scope with
  | [] => None
  | (name, c) :: rest => if String.eqb name ident then Some c else binding ident rest
  end.

(** Evaluation of an identifier in class position. *)
Definition resolve (ident : string) : M ClassDecl :=
  match binding ident module_scope with
  | Some c => mret c
  | None => throw (ReferenceError ident)
  end.

(** What [new C(db, sql)] evaluates to: a reference to a new [Statements]
    instance, or an [RqliteDatabase] instance whose [baseUrl] field holds
    the first argument. *)
Inductive Instance : Type :=
| StatementsInstance (l : loc)
| RqliteDatabaseInstance (baseUrl_field : RqliteDatabase_obj).

Definition new (c : ClassDecl) (db : RqliteDatabase_obj) (sql : string) : M Instance :=
  match c with
  | Class_Statements => l ← Statements_constructor db sql; mret (StatementsInstance l)
  | Class_RqliteDatabase => mret (RqliteDatabaseInstance db)
  end.

(** [prepare(sql)]: [return new Statement(this, sql)] *)
Definition RqliteDatabase_prepare (this : RqliteDatabase_obj) (sql : string) : M Instance :=
  c ← resolve "Statement";
  new c this sql.

(** ** Clients of the adapter *)

(** The request [_executeQuery] hands to [fetch]. *)
Definition execute_request (h : Host) (this : RqliteDatabase_obj) (sql : string)
    (params : list JsValue) : Request :=
  {| url := baseUrl this +:+ "/db/execute";
     method := "POST";
     headers := [("Content-Type", "application/json")];
     body := JSON_stringify h (query_document sql params) |}.

(** What awaiting [fetch] and then [response.json()] yields. *)
Definition settle (o : FetchOutcome) : Completion JsValue :=
  match o with
  | Rejected reason => Abrupt (Rejection reason)
  | Responded r => json r
  end.

(** The methods of a [Statements] instance. *)
Inductive Call : Type :=
| CallBind (ps : list JsValue)
| CallAll
| CallGet
| CallRun
| CallValues
| CallFinalize
| CallToString.

(** One step of a client: a method call on a statement or on a database,
    or the creation of a statement.  The client goes on whether the call
    completed normally or not. *)
Inductive Action : Type :=
| OnStatement (l : loc) (c : Call)
| NewStatements (d : RqliteDatabase_obj) (s : string)
| DbPrepare (d : RqliteDatabase_obj) (s : string)
| DbRun (d : RqliteDatabase_obj) (s : string) (ps : list JsValue)
| DbGet (d : RqliteDatabase_obj) (s : string) (ps : list JsValue)
| DbQuery (d : RqliteDatabase_obj) (s : string) (ps : list JsValue).

Definition invoke (l : loc) (c : Call) (w : World) : World :=
  match c with
  | CallBind ps => snd (Statements_bind l ps w)
  | CallAll => snd (Statements_all l w)
  | CallGet => snd (Statements_get l w)
  | CallRun => snd (Statements_run l w)
  | CallValues => snd (Statements_values l w)
  | CallFinalize => snd (Statements_finalize l w)
  | CallToString => snd (Statements_toString l w)
  end.

Definition perform (a : Action) (w : World) : World :=
  match a with
  | OnStatement l c => invoke l c w
  | NewStatements d s => snd (Statements_constructor d s w)
  | DbPrepare d s => snd (RqliteDatabase_prepare d s w)
  | DbRun d s ps => snd (RqliteDatabase_run d s ps w)
  | DbGet d s ps => snd (RqliteDatabase_get d s ps w)
  | DbQuery d s ps => snd (RqliteDatabase_query d s ps w)
  end.

Definition after (acts : list Action) (w : World) : World :=
  fold_left (fun w a => perform a w) acts w.

(** The calls that execute the statement. *)
Definition is_execution (c : Call) : bool :=
  match c with
  | CallAll | CallGet | CallRun | CallValues => true
  | CallBind _ | CallFinalize | CallToString => false
  end.

Definition rebinds (this : loc) (a : Action) : bool :=
  match a with
  | OnStatement l (CallBind _) => Nat.eqb l this
  | _ => false
  end.

Definition finalizes (this : loc) (a : Action) : bool :=
  match a with
  | OnStatement l CallFinalize => Nat.eqb l this
  | _ => false
  end.

(** The parameter list an execution of the statement would pass on. *)
Definition bound_params (this : loc) (w : World) : option (list JsValue) :=
  params <$> heap w !! this.

(** The first column of a row object, its members being the columns in the
    order of the response; [undefined] for a row without columns. *)
Definition first_column (row : JsValue) : JsValue :=
  match row with
  | JObject ((_, v) :: _) => v
  | _ => JUndefined
  end.

Definition is_row (v : JsValue) : bool :=
  match v with
  | JObject _ => true
  | _ => false
  end.

(** The rows a response document contains. *)
Definition response_rows (j : JsValue) : list JsValue :=
  match j with
  | JObject members =>
      match own_member "rows" members with
      | Some (JArray rs) => rs
      | _ => []
      end
  | _ => []
  end.

(** The first row, or [null] when there is none. *)
Definition first_or_null (rs : list JsValue) : JsValue :=
  match rs with
  | [] => JNull
  | row :: _ => row
  end.

(** ** A stub remote endpoint *)

Definition quote : string := String (Ascii.ascii_of_nat 34) EmptyString.

(** JSON text of a document, for the stub host (strings are written
    without escapes). *)
Fixpoint render (v : JsValue) : string :=
  match v with
  | JUndefined | JNull => "null"
  | JBool true => "true"
  | JBool false => "false"
  | JNumber n => pretty n
  | JString s => quote +:+ s +:+ quote
  | JArray items =>
      "[" +:+
      (fix elements (xs : list JsValue) : string :=
         match xs with
         | [] => EmptyString
         | x :: rest =>
             match rest with
             | [] => render x
             | _ :: _ => render x +:+ "," +:+ elements rest
             end
         end) items +:+ "]"
  | JObject members =>
      "{" +:+
      (fix entries (ms : list (string * JsValue)) : string :=
         match ms with
         | [] => EmptyString
         | (k, x) :: rest =>
             match rest with
             | [] => quote +:+ k +:+ quote +:+ ":" +:+ render x
             | _ :: _ => quote +:+ k +:+ quote +:+ ":" +:+ render x +:+ "," +:+ entries rest
             end
         end) members +:+ "}"
  end.

(** A host whose remote end gives the same answer to every request. *)
Definition stub_host (o : FetchOutcome) : Host :=
  {| respond := fun _ _ => o;
     JSON_stringify := render;
     relational_gt_zero := fun _ => Normal false |}.

Definition stub_world (o : FetchOutcome) : World :=
  {| host := stub_host o; sent := []; heap := [] |}.

Definition localhost : RqliteDatabase_obj :=
  RqliteDatabase_constructor "http://localhost:4001".

(** A change summary, as an [INSERT] is answered. *)
Definition change_summary : JsValue :=
  JObject [("changes", JNumber 1); ("lastInsertRowid", JNumber 7)].

(** Row data, as a [SELECT] is answered: two rows, the second without
    columns. *)
Definition two_rows : JsValue :=
  JObject [("rows", JArray [JObject [("id", JNumber 1); ("name", JString "ada")];
                            JObject []])].

Definition error_document : JsValue :=
  JObject [("error", JString "no such table")].

(** A world whose heap holds one statement, at reference [0]. *)
Definition statement_world (o : FetchOutcome) (st : Statements_obj) : World :=
  {| host := stub_host o; sent := []; heap := [st] |}.

Definition select_statement : Statements_obj :=
  {| db := localhost; sql := "SELECT id, name FROM t WHERE id > ?"; params := [JNumber 0] |}.

(** ** Statements of the contract *)

(** A failed exchange surfaces as a failure of [op]: a rejected [fetch] with
    its own reason, a response whose status is not a success status as some
    abrupt completion. *)
Definition propagates_failures
    (op : RqliteDatabase_obj -> string -> list JsValue -> M JsValue) : Prop :=
  ∀ w this s ps,
    match respond (host w) (sent w) (execute_request (host w) this s ps) with
    | Rejected reason => fst (op this s ps w) = Abrupt (Rejection reason)
    | Responded r => ok r = false → ∃ t, fst (op this s ps w) = Abrupt t
    end.

(** [get] yields [null] exactly for the responses that contain no rows, and
    the first row for the others. *)
Definition null_exactly_when_no_rows : Prop :=
  ∀ w this s ps r j,
    respond (host w) (sent w) (execute_request (host w) this s ps) = Responded r →
    json r = Normal j →
    (fst (RqliteDatabase_get this s ps w) = Normal JNull ↔ response_rows j = [])
    ∧ ∀ row rest, response_rows j = row :: rest →
        fst (RqliteDatabase_get this s ps w) = Normal row.

(** [query] yields, for every response document, the sequence of the rows
    the document contains, in their order. *)
Definition returns_rows_of_every_response : Prop :=
  ∀ w this s ps r j,
    respond (host w) (sent w) (execute_request (host w) this s ps) = Responded r →
    json r = Normal j →
    ∃ out, fst (RqliteDatabase_query this s ps w) = Normal (JArray out)
           ∧ out = response_rows j.

(** A row object none of whose columns is named by an array index. *)
Definition named_columns (row : JsValue) : bool :=
  match row with
  | JObject members => forallb (λ m, match array_index (fst m) with Some _ => false | None => true end) members
  | _ => false
  end.

(** Row data as [SELECT name, 1 FROM t] is answered: the first column is
    [name], the second is named [1]. *)
Definition name_then_one : JsValue :=
  JObject [("rows", JArray [JObject [("name", JString "ada"); ("1", JNumber 1)]])].

(** Once bound, a parameter list stays the statement's until [bind] is
    called on the statement again. *)
Definition bound_until_rebound : Prop :=
  ∀ w this o ps acts,
    heap w !! this = Some o →
    Forall (λ a, rebinds this a = false) acts →
    bound_params this (after acts (snd (Statements_bind this ps w))) = Some ps.

(** ** Further vocabulary *)

(** The steps of a client that stay local: creating, binding, finalizing or
    printing a statement, and [prepare]. *)
Definition is_local (a : Action) : bool :=
  match a with
  | OnStatement _ c => negb (is_execution c)
  | NewStatements _ _ | DbPrepare _ _ => true
  | DbRun _ _ _ | DbGet _ _ _ | DbQuery _ _ _ => false
  end.

(** [undefined] or [null]. *)
Definition nullish (v : JsValue) : bool :=
  match v with
  | JUndefined | JNull => true
  | _ => false
  end.

Definition is_array (v : JsValue) : bool :=
  match v with
  | JArray _ => true
  | _ => false
  end.

(** The shape of a request to the execute endpoint of some base URL. *)
Definition is_execute_post (r : Request) : Prop :=
  method r = "POST"
  ∧ headers r = [("Content-Type", "application/json")]
  ∧ ∃ base, url r = base +:+ "/db/execute".

(** A world with no statement yet. *)
Definition insert_statement : Statements_obj :=
  {| db := localhost; sql := "INSERT INTO t(name) VALUES(?)"; params := [JString "ada"] |}.

(** Row data with a [null] among the rows. *)
Definition rows_with_null : JsValue :=
  JObject [("rows", JArray [JObject [("id", JNumber 1)]; JNull])].

(** Row data whose rows are not all objects. *)
Definition mixed_rows : JsValue :=
  JObject [("rows", JArray [JObject [("id", JNumber 1)]; JNumber 5; JArray [JString "x"]])].

(** * Properties *)

(** ** Equations of the methods *)

Ltac unfold_m :=
  unfold mbind, mret, M_bind, M_ret, Completion_bind, Completion_ret,
    throw, lift, the_host, read_this, write_this, allocate in *.

Lemma executeQuery_eq this sql ps w :
  _executeQuery this sql ps w =
  (settle (respond (host w) (sent w) (execute_request (host w) this sql ps)),
   mkWorld (host w) (sent w ++ [execute_request (host w) this sql ps]) (heap w)).
Proof.
  unfold _executeQuery, Response_json, fetch, execute_request, settle. unfold_m. simpl.
  destruct (respond _ _ _); reflexivity.
Qed.

Lemma run_eq this sql ps w :
  RqliteDatabase_run this sql ps w =
  (settle (respond (host w) (sent w) (execute_request (host w) this sql ps)),
   mkWorld (host w) (sent w ++ [execute_request (host w) this sql ps]) (heap w)).
Proof.
  unfold RqliteDatabase_run. unfold mbind, M_bind. rewrite executeQuery_eq.
  destruct (settle _); reflexivity.
Qed.

Lemma query_eq this sql ps w :
  RqliteDatabase_query this sql ps w =
  (settle (respond (host w) (sent w) (execute_request (host w) this sql ps)) ≫= read_rows,
   mkWorld (host w) (sent w ++ [execute_request (host w) this sql ps]) (heap w)).
Proof.
  unfold RqliteDatabase_query. unfold mbind at 1, M_bind. rewrite executeQuery_eq.
  destruct (settle _); reflexivity.
Qed.

(** [get] is [query] followed by the choice between the first row and
    [null], which touches neither the network nor the heap. *)
Lemma get_eq this sql ps w :
  RqliteDatabase_get this sql ps w =
  (rows ← fst (RqliteDatabase_query this sql ps w);
   len ← read_length rows;
   positive ← gt_zero (host w) len;
   if positive : bool then read_index0 rows else Normal JNull,
   snd (RqliteDatabase_query this sql ps w)).
Proof.
  unfold RqliteDatabase_get. unfold mbind at 1, M_bind. rewrite query_eq. simpl.
  destruct (settle _ ≫= read_rows); reflexivity.
Qed.

(** ** Creating a statement *)

(** [new Statements(db, sql)] allocates an instance that pairs the SQL text
    with an empty parameter list. *)
Lemma Statements_constructor_pairs d s w :
  ∃ w', Statements_constructor d s w = (Normal (length (heap w)), w')
        ∧ heap w' !! length (heap w) = Some {| db := d; sql := s; params := [] |}
        ∧ sent w' = sent w.
Proof.
  eexists. split; [reflexivity|]. simpl. split; [|reflexivity].
  rewrite lookup_app_r by lia. by rewrite Nat.sub_diag.
Qed.

(** The name under which the statement class is declared does resolve. *)
Lemma resolve_Statements w : resolve "Statements" w = (Normal Class_Statements, w).
Proof. reflexivity. Qed.

(** C1, on the code: [prepare] evaluates [new Statement(this, sql)], and the
    module declares the statement class under the name [Statements]; the
    identifier [Statement] is unbound, so for every database and every SQL
    string the call does not return a statement: it throws a ReferenceError
    and leaves the world as it was. *)
Theorem prepare_throws_ReferenceError this s w :
  RqliteDatabase_prepare this s w = (Abrupt (ReferenceError "Statement"), w).
Proof. reflexivity. Qed.

(** ** Forwarding to the remote endpoint *)

(** C2: for every SQL string, parameter list and JSON document the remote
    service answers with, [run(sql, params)] hands [fetch] one request whose
    body is the JSON text of [{ sql, params }] with exactly the given SQL
    text and parameter list, and returns the document of the response as it
    is: the change count and the last-inserted identifier are the ones the
    remote service reported. *)
Theorem run_forwards_and_returns_verbatim w this s ps r j :
  respond (host w) (sent w) (execute_request (host w) this s ps) = Responded r →
  json r = Normal j →
  ∃ req,
    RqliteDatabase_run this s ps w
      = (Normal j, mkWorld (host w) (sent w ++ [req]) (heap w))
    ∧ url req = baseUrl this +:+ "/db/execute"
    ∧ body req
      = JSON_stringify (host w) (JObject [("sql", JString s); ("params", JArray ps)])
    ∧ ∀ changes rowid,
        j = JObject [("changes", changes); ("lastInsertRowid", rowid)] →
        fst (RqliteDatabase_run this s ps w)
          = Normal (JObject [("changes", changes); ("lastInsertRowid", rowid)]).
Proof.
  intros Hresp Hjson. exists (execute_request (host w) this s ps).
  rewrite run_eq, Hresp. simpl. rewrite Hjson.
  repeat split. by intros ? ? ->.
Qed.

Lemma run_forwards_and_returns_verbatim_witness :
  ∃ req,
    RqliteDatabase_run localhost "INSERT INTO t(x) VALUES(?)" [JNumber 5]
      (stub_world (Responded (mkResponse 200 (Normal change_summary))))
      = (Normal change_summary,
         mkWorld (stub_host (Responded (mkResponse 200 (Normal change_summary)))) ([] ++ [req]) [])
    ∧ url req = "http://localhost:4001/db/execute"
    ∧ body req = render (JObject [("sql", JString "INSERT INTO t(x) VALUES(?)");
                                  ("params", JArray [JNumber 5])])
    ∧ ∀ changes rowid,
        change_summary = JObject [("changes", changes); ("lastInsertRowid", rowid)] →
        fst (RqliteDatabase_run localhost "INSERT INTO t(x) VALUES(?)" [JNumber 5]
               (stub_world (Responded (mkResponse 200 (Normal change_summary)))))
          = Normal (JObject [("changes", changes); ("lastInsertRowid", rowid)]).
Proof.
  apply (run_forwards_and_returns_verbatim
           (stub_world (Responded (mkResponse 200 (Normal change_summary))))
           localhost "INSERT INTO t(x) VALUES(?)" [JNumber 5]
           (mkResponse 200 (Normal change_summary)) change_summary);
    reflexivity.
Defined.

(** C3, as stated, fails: not every response document makes [query] return
    a sequence.  A response that reports a change summary has no [rows]
    member, and [query] returns [undefined] for it, not the empty sequence
    of its rows. *)
Lemma query_without_rows_member_returns_undefined :
  response_rows change_summary = []
  ∧ fst (RqliteDatabase_query localhost "DELETE FROM t" []
           (stub_world (Responded (mkResponse 200 (Normal change_summary)))))
    = Normal JUndefined
  ∧ ¬ returns_rows_of_every_response.
Proof.
  split; [reflexivity|]. split; [reflexivity|].
  intros Hclaim.
  destruct (Hclaim (stub_world (Responded (mkResponse 200 (Normal change_summary))))
                   localhost "DELETE FROM t" []
                   (mkResponse 200 (Normal change_summary)) change_summary
                   eq_refl eq_refl) as (out & Hout & _).
  discriminate Hout.
Qed.

(** C3, amended: for every response document that carries a [rows]
    sequence, [query(sql, params)] returns a sequence of the same length
    whose i-th element is the i-th row of the response, for every i: the
    rows come back unchanged and in the order of the response.  For a
    response document without a [rows] member it returns [undefined], not
    a sequence. *)
Theorem query_returns_rows_in_order w this s ps r members :
  respond (host w) (sent w) (execute_request (host w) this s ps) = Responded r →
  json r = Normal (JObject members) →
  (∀ rs, own_member "rows" members = Some (JArray rs) →
     ∃ out,
       fst (RqliteDatabase_query this s ps w) = Normal (JArray out)
       ∧ length out = length rs
       ∧ ∀ i : nat, out !! i = rs !! i)
  ∧ (own_member "rows" members = None →
     fst (RqliteDatabase_query this s ps w) = Normal JUndefined).
Proof.
  intros Hresp Hjson. rewrite query_eq, Hresp. simpl. rewrite Hjson. simpl.
  split.
  - intros rs Hrows. exists rs. rewrite Hrows. done.
  - intros Hnone. by rewrite Hnone.
Qed.

Lemma query_returns_rows_in_order_witness :
  (∃ out,
     fst (RqliteDatabase_query localhost "SELECT id, name FROM t" []
            (stub_world (Responded (mkResponse 200 (Normal two_rows)))))
     = Normal (JArray out)
     ∧ length out = 2%nat
     ∧ ∀ i : nat,
         out !! i = [JObject [("id", JNumber 1); ("name", JString "ada")]; JObject []] !! i)
  ∧ fst (RqliteDatabase_query localhost "DELETE FROM t" []
           (stub_world (Responded (mkResponse 200 (Normal change_summary)))))
    = Normal JUndefined.
Proof.
  split.
  - exact (proj1 (query_returns_rows_in_order
                    (stub_world (Responded (mkResponse 200 (Normal two_rows))))
                    localhost "SELECT id, name FROM t" []
                    (mkResponse 200 (Normal two_rows)) _ eq_refl eq_refl)
                 _ eq_refl).
  - exact (proj2 (query_returns_rows_in_order
                    (stub_world (Responded (mkResponse 200 (Normal change_summary))))
                    localhost "DELETE FROM t" []
                    (mkResponse 200 (Normal change_summary)) _ eq_refl eq_refl)
                 eq_refl).
Defined.

(** C8: every call to [run], [get] or [query] hands [fetch] exactly one
    request: a POST to the [/db/execute] path under the connection's base
    URL, with a JSON content type and the JSON text of [{ sql, params }] as
    its body.  The log of requests grows by that one request, whatever the
    outcome, and the completion of the call is computed from the single
    answer to it. *)
Theorem one_post_request_per_call w this s ps :
  let req := {| url := baseUrl this +:+ "/db/execute";
                method := "POST";
                headers := [("Content-Type", "application/json")];
                body := JSON_stringify (host w)
                          (JObject [("sql", JString s); ("params", JArray ps)]) |} in
  let answer := settle (respond (host w) (sent w) req) in
  sent (snd (RqliteDatabase_run this s ps w)) = sent w ++ [req]
  ∧ sent (snd (RqliteDatabase_query this s ps w)) = sent w ++ [req]
  ∧ sent (snd (RqliteDatabase_get this s ps w)) = sent w ++ [req]
  ∧ fst (RqliteDatabase_run this s ps w) = answer
  ∧ fst (RqliteDatabase_query this s ps w) = answer ≫= read_rows
  ∧ fst (RqliteDatabase_get this s ps w)
    = (rows ← answer ≫= read_rows;
       len ← read_length rows;
       positive ← gt_zero (host w) len;
       if positive : bool then read_index0 rows else Normal JNull).
Proof.
  intros req answer. rewrite get_eq, run_eq, query_eq. simpl. done.
Qed.

(** ** Failures *)

(** C4, as stated, fails: the adapter never reads the status of a response.
    A response with status 500 and a JSON body is not a failure for [run]:
    its body is the normal result of the call. *)
Lemma non_success_response_returned_normally :
  ok (mkResponse 500 (Normal error_document)) = false
  ∧ fst (RqliteDatabase_run localhost "INSERT INTO missing(x) VALUES(1)" []
           (stub_world (Responded (mkResponse 500 (Normal error_document)))))
    = Normal error_document
  ∧ ¬ (propagates_failures RqliteDatabase_run
       ∧ propagates_failures RqliteDatabase_get
       ∧ propagates_failures RqliteDatabase_query).
Proof.
  split; [reflexivity|]. split; [reflexivity|].
  intros [Hrun _].
  specialize (Hrun (stub_world (Responded (mkResponse 500 (Normal error_document))))
                   localhost "INSERT INTO missing(x) VALUES(1)" []).
  simpl in Hrun. destruct (Hrun eq_refl) as [t Ht]. discriminate Ht.
Qed.

(** C4, amended: when the network call fails (the promise of [fetch] is
    rejected) or the body of the response cannot be read as JSON, [run],
    [query] and [get] complete abruptly with that very reason, neither
    wrapped nor replaced.  The status of a response is not inspected: [run]
    completes as [response.json()] does, so the JSON body of a non-success
    response is a normal return value. *)
Theorem failures_propagate_status_ignored w this s ps :
  let req := execute_request (host w) this s ps in
  (∀ reason, respond (host w) (sent w) req = Rejected reason →
     fst (RqliteDatabase_run this s ps w) = Abrupt (Rejection reason)
     ∧ fst (RqliteDatabase_query this s ps w) = Abrupt (Rejection reason)
     ∧ fst (RqliteDatabase_get this s ps w) = Abrupt (Rejection reason))
  ∧ (∀ r t, respond (host w) (sent w) req = Responded r → json r = Abrupt t →
     fst (RqliteDatabase_run this s ps w) = Abrupt t
     ∧ fst (RqliteDatabase_query this s ps w) = Abrupt t
     ∧ fst (RqliteDatabase_get this s ps w) = Abrupt t)
  ∧ (∀ r, respond (host w) (sent w) req = Responded r →
     fst (RqliteDatabase_run this s ps w) = json r).
Proof.
  intros req. subst req. split; [|split].
  - intros reason Hrej. rewrite get_eq, run_eq, query_eq, Hrej. done.
  - intros r t Hresp Hbody. rewrite get_eq, run_eq, query_eq, Hresp. simpl.
    rewrite Hbody. done.
  - intros r Hresp. rewrite run_eq, Hresp. reflexivity.
Qed.

Lemma failures_propagate_status_ignored_witness :
  fst (RqliteDatabase_get localhost "SELECT 1" []
         (stub_world (Rejected (JString "connection refused"))))
  = Abrupt (Rejection (JString "connection refused"))
  ∧ fst (RqliteDatabase_run localhost "SELECT 1" []
           (stub_world (Responded (mkResponse 200 (Abrupt (Rejection (JString "not JSON")))))))
    = Abrupt (Rejection (JString "not JSON"))
  ∧ fst (RqliteDatabase_run localhost "SELECT 1" []
           (stub_world (Responded (mkResponse 404 (Normal error_document)))))
    = Normal error_document.
Proof.
  split; [|split].
  - destruct (failures_propagate_status_ignored
                (stub_world (Rejected (JString "connection refused")))
                localhost "SELECT 1" []) as [Hrej _].
    destruct (Hrej (JString "connection refused") eq_refl) as (_ & _ & Hget).
    exact Hget.
  - destruct (failures_propagate_status_ignored
                (stub_world (Responded (mkResponse 200 (Abrupt (Rejection (JString "not JSON"))))))
                localhost "SELECT 1" []) as (_ & Hbody & _).
    destruct (Hbody (mkResponse 200 (Abrupt (Rejection (JString "not JSON")))) _
                eq_refl eq_refl) as (Hrun & _).
    exact Hrun.
  - destruct (failures_propagate_status_ignored
                (stub_world (Responded (mkResponse 404 (Normal error_document))))
                localhost "SELECT 1" []) as (_ & _ & Hany).
    exact (Hany (mkResponse 404 (Normal error_document)) eq_refl).
Defined.

(** ** Fetching one row *)

Lemma first_row_of_sequence h rs :
  (len ← read_length (JArray rs);
   positive ← gt_zero h len;
   if positive : bool then read_index0 (JArray rs) else Normal JNull)
  = Normal (first_or_null rs).
Proof. destruct rs; reflexivity. Qed.

(** C5, as stated, fails: a response that reports a change summary contains
    no rows, and [get] does not return [null] for it; the read of
    [rows.length] on [undefined] throws a TypeError. *)
Lemma get_without_rows_member_throws :
  response_rows change_summary = []
  ∧ fst (RqliteDatabase_get localhost "DELETE FROM t" []
           (stub_world (Responded (mkResponse 200 (Normal change_summary)))))
    = Abrupt TypeError
  ∧ ¬ null_exactly_when_no_rows.
Proof.
  split; [reflexivity|]. split; [reflexivity|].
  intros Hclaim.
  destruct (Hclaim (stub_world (Responded (mkResponse 200 (Normal change_summary))))
                   localhost "DELETE FROM t" []
                   (mkResponse 200 (Normal change_summary)) change_summary
                   eq_refl eq_refl) as [[_ Hnull] _].
  specialize (Hnull eq_refl). discriminate Hnull.
Qed.

(** C5, amended: when the response document carries a [rows] sequence,
    [get(sql, params)] returns [null] if the sequence is empty and its first
    element otherwise; the rows being objects, the result is [null] exactly
    when the sequence is empty.  When the response document has no [rows]
    member, [get] returns nothing: it throws a TypeError. *)
Theorem get_first_row_or_null w this s ps r members :
  respond (host w) (sent w) (execute_request (host w) this s ps) = Responded r →
  json r = Normal (JObject members) →
  (∀ rs, own_member "rows" members = Some (JArray rs) →
     fst (RqliteDatabase_get this s ps w) = Normal (first_or_null rs)
     ∧ (Forall (λ row, is_row row = true) rs →
        (fst (RqliteDatabase_get this s ps w) = Normal JNull ↔ rs = [])))
  ∧ (own_member "rows" members = None →
     fst (RqliteDatabase_get this s ps w) = Abrupt TypeError).
Proof.
  intros Hresp Hjson. rewrite get_eq, query_eq, Hresp. simpl. rewrite Hjson. simpl.
  split.
  - intros rs Hrows. rewrite Hrows.
    destruct rs as [|row rest]; simpl; (split; [reflexivity|]).
    + done.
    + intros Hobj. apply Forall_cons in Hobj as [Hrow _].
      split; [intros [= ->]; discriminate Hrow | discriminate].
  - intros Hnone. rewrite Hnone. reflexivity.
Qed.

Lemma get_first_row_or_null_witness :
  fst (RqliteDatabase_get localhost "SELECT id, name FROM t" []
         (stub_world (Responded (mkResponse 200 (Normal two_rows)))))
  = Normal (JObject [("id", JNumber 1); ("name", JString "ada")])
  ∧ fst (RqliteDatabase_get localhost "SELECT id, name FROM t" []
           (stub_world (Responded (mkResponse 200 (Normal (JObject [("rows", JArray [])]))))))
    = Normal JNull.
Proof.
  split.
  - destruct (get_first_row_or_null
                (stub_world (Responded (mkResponse 200 (Normal two_rows))))
                localhost "SELECT id, name FROM t" []
                (mkResponse 200 (Normal two_rows)) _ eq_refl eq_refl) as [Hrows _].
    exact (proj1 (Hrows _ eq_refl)).
  - destruct (get_first_row_or_null
                (stub_world (Responded (mkResponse 200 (Normal (JObject [("rows", JArray [])])))))
                localhost "SELECT id, name FROM t" []
                (mkResponse 200 (Normal (JObject [("rows", JArray [])]))) _
                eq_refl eq_refl) as [Hrows _].
    exact (proj1 (Hrows _ eq_refl)).
Defined.

Lemma get_after_query this s ps w rs w' :
  RqliteDatabase_query this s ps w = (Normal (JArray rs), w') →
  RqliteDatabase_get this s ps w = (Normal (first_or_null rs), w').
Proof.
  intros Hquery. rewrite get_eq, Hquery. simpl.
  f_equal. apply (first_row_of_sequence (host w) rs).
Qed.

(** C9: fetching one row agrees with fetching all rows.  Whenever
    [query(sql, params)] returns a list, [get(sql, params)], run in the same
    state, returns the first element of that list, or [null] when the list
    is empty, and leaves the same state behind; likewise [get()] of a
    statement against its [all()]. *)
Theorem get_is_head_of_query w this s ps l :
  (∀ rs w', RqliteDatabase_query this s ps w = (Normal (JArray rs), w') →
     RqliteDatabase_get this s ps w = (Normal (first_or_null rs), w'))
  ∧ (∀ rs w', Statements_all l w = (Normal (JArray rs), w') →
     Statements_get l w = (Normal (first_or_null rs), w')).
Proof.
  split.
  - intros rs w'. apply get_after_query.
  - intros rs w'. unfold Statements_all, Statements_get. unfold_m.
    destruct (heap w !! l) as [o|]; [|discriminate].
    apply get_after_query.
Qed.

Lemma get_is_head_of_query_witness :
  RqliteDatabase_get localhost "SELECT id, name FROM t" []
    (stub_world (Responded (mkResponse 200 (Normal two_rows))))
  = (Normal (JObject [("id", JNumber 1); ("name", JString "ada")]),
     snd (RqliteDatabase_query localhost "SELECT id, name FROM t" []
            (stub_world (Responded (mkResponse 200 (Normal two_rows)))))).
Proof.
  destruct (get_is_head_of_query
              (stub_world (Responded (mkResponse 200 (Normal two_rows))))
              localhost "SELECT id, name FROM t" [] 0%nat) as [Hdb _].
  exact (Hdb _ _ eq_refl).
Defined.

(** ** First-column values *)

Lemma own_values_named members :
  forallb (λ m, match array_index (fst m) with Some _ => false | None => true end) members
    = true →
  own_values members = map snd members.
Proof.
  intros Hnamed.
  assert (indexed_members members = [] ∧ named_members members = members) as [Hi Hn].
  { induction members as [|[k v] rest IH]; [done|].
    cbn [forallb fst] in Hnamed. apply andb_prop in Hnamed as [Hk Hrest].
    destruct (IH Hrest) as [Hi Hn]. cbn [indexed_members named_members].
    destruct (array_index k); [discriminate Hk|]. by rewrite Hn. }
  unfold own_values. by rewrite Hi, Hn.
Qed.

Lemma first_value_of_row row :
  named_columns row = true →
  first_value row = Normal (first_column row).
Proof.
  destruct row as [| | | | | |members]; try discriminate. intros Hnamed.
  unfold first_value. cbn [Object_values]. rewrite (own_values_named members Hnamed).
  by destruct members as [|[k v] rest].
Qed.

Lemma map_first_value_rows rs :
  Forall (λ row, named_columns row = true) rs →
  map_elements first_value rs = Normal (map first_column rs).
Proof.
  induction 1 as [|row rest Hrow _ IH]; [reflexivity|].
  cbn [map_elements map]. rewrite (first_value_of_row row Hrow), IH. reflexivity.
Qed.

(** C10, on the code: [values()] takes the first of [Object.values(row)],
    and the host lists the members named by an array index before the
    others.  For the row that [SELECT name, 1 FROM t] gives, whose first
    column is [name], [values()] returns the value of the column named [1],
    against the claim and the method's own documentation. *)
Theorem values_prefers_integer_like_column :
  fst (Statements_all 0%nat
         (statement_world (Responded (mkResponse 200 (Normal name_then_one)))
            select_statement))
  = Normal (JArray [JObject [("name", JString "ada"); ("1", JNumber 1)]])
  ∧ first_column (JObject [("name", JString "ada"); ("1", JNumber 1)]) = JString "ada"
  ∧ fst (Statements_values 0%nat
           (statement_world (Responded (mkResponse 200 (Normal name_then_one)))
              select_statement))
    = Normal (JArray [JNumber 1]).
Proof. repeat split; reflexivity. Qed.

(** X16: when [all()] returns row objects none of whose columns is named
    by an array index, [values()] returns, in the same order, the value of
    the first column of each row, in the state [all()] leaves; no rows give
    the empty list, and a row without columns gives [undefined] at its
    place, without the call failing. *)
Theorem values_first_columns w this rs w' :
  Statements_all this w = (Normal (JArray rs), w') →
  Forall (λ row, named_columns row = true) rs →
  Statements_values this w = (Normal (JArray (map first_column rs)), w')
  ∧ (rs = [] → fst (Statements_values this w) = Normal (JArray []))
  ∧ (∀ i : nat, rs !! i = Some (JObject []) →
       map first_column rs !! i = Some JUndefined).
Proof.
  intros Hall Hrows.
  assert (Statements_values this w = (Normal (JArray (map first_column rs)), w')) as Hvalues.
  { unfold Statements_values. unfold mbind at 1, M_bind. rewrite Hall.
    unfold lift, Array_map. rewrite (map_first_value_rows rs Hrows). reflexivity. }
  split; [exact Hvalues|]. split.
  - intros ->. rewrite Hvalues. reflexivity.
  - intros i Hi. rewrite list_lookup_fmap, Hi. reflexivity.
Qed.

Lemma values_first_columns_witness :
  Statements_values 0%nat
    (statement_world (Responded (mkResponse 200 (Normal two_rows))) select_statement)
  = (Normal (JArray [JNumber 1; JUndefined]),
     snd (Statements_all 0%nat
            (statement_world (Responded (mkResponse 200 (Normal two_rows))) select_statement))).
Proof.
  refine (proj1 (values_first_columns
                   (statement_world (Responded (mkResponse 200 (Normal two_rows)))
                      select_statement)
                   0%nat
                   [JObject [("id", JNumber 1); ("name", JString "ada")]; JObject []]
                   _ eq_refl _)).
  repeat constructor.
Defined.

(** ** The statement object *)

Lemma bind_eq this ps w o :
  heap w !! this = Some o →
  Statements_bind this ps w
  = (Normal this,
     mkWorld (host w) (sent w)
       (<[this := {| db := db o; sql := sql o; params := ps |}]> (heap w))).
Proof. intros Ho. unfold Statements_bind. unfold_m. by rewrite Ho. Qed.

Lemma finalize_eq this w o :
  heap w !! this = Some o →
  Statements_finalize this w
  = (Normal this,
     mkWorld (host w) (sent w)
       (<[this := {| db := db o; sql := EmptyString; params := [] |}]> (heap w))).
Proof.
  intros Ho. unfold Statements_finalize. unfold_m. rewrite Ho. simpl.
  rewrite list_lookup_insert_eq by (by eapply lookup_lt_Some).
  simpl. by rewrite list_insert_insert_eq.
Qed.

Lemma dangling_receiver this w :
  heap w !! this = None →
  ∀ c, invoke this c w = w.
Proof.
  intros Hnone c.
  destruct c; unfold invoke, Statements_bind, Statements_all, Statements_get,
    Statements_run, Statements_values, Statements_all, Statements_finalize,
    Statements_toString; unfold_m; by rewrite Hnone.
Qed.

(** What an execution does to the world: one request with the statement's
    SQL text and parameter list, nothing else. *)
Lemma execution_eq this c w o :
  heap w !! this = Some o →
  is_execution c = true →
  invoke this c w
  = mkWorld (host w)
      (sent w ++ [execute_request (host w) (db o) (sql o) (params o)]) (heap w).
Proof.
  intros Ho Hc.
  destruct c; try discriminate Hc; unfold invoke, Statements_values, Statements_all,
    Statements_get, Statements_run; unfold_m; rewrite Ho.
  - by rewrite query_eq.
  - by rewrite get_eq, query_eq.
  - by rewrite run_eq.
  - rewrite query_eq. simpl. by destruct (settle _ ≫= read_rows).
Qed.

Lemma invoke_heap this c w :
  match c with CallBind _ | CallFinalize => False | _ => True end →
  heap (invoke this c w) = heap w.
Proof.
  intros Hc. destruct (heap w !! this) as [o|] eqn:Ho.
  - destruct c; try contradiction;
      try (by rewrite (execution_eq _ _ _ _ Ho) by reflexivity).
    unfold invoke, Statements_toString. unfold_m. by rewrite Ho.
  - by rewrite dangling_receiver.
Qed.

Lemma perform_host a w : host (perform a w) = host w.
Proof.
  destruct a as [l c| | | | |]; simpl.
  - destruct (heap w !! l) as [o|] eqn:Ho; [|by rewrite dangling_receiver].
    destruct c; try (by rewrite (execution_eq _ _ _ _ Ho) by reflexivity); simpl.
    + by rewrite (bind_eq l ps w o Ho).
    + by rewrite (finalize_eq l w o Ho).
    + unfold Statements_toString. unfold_m. by rewrite Ho.
  - reflexivity.
  - reflexivity.
  - by rewrite run_eq.
  - by rewrite get_eq, query_eq.
  - by rewrite query_eq.
Qed.

(** The effect of one step of a client on a given statement: only [bind]
    and [finalize] called on that very statement change it. *)
Lemma perform_statement this a w o :
  heap w !! this = Some o →
  heap (perform a w) !! this
  = Some (match a with
          | OnStatement l (CallBind ps) =>
              if Nat.eqb l this then {| db := db o; sql := sql o; params := ps |} else o
          | OnStatement l CallFinalize =>
              if Nat.eqb l this then {| db := db o; sql := EmptyString; params := [] |} else o
          | _ => o
          end).
Proof.
  intros Ho. destruct a as [l c| | | | |]; simpl.
  - destruct (heap w !! l) as [o'|] eqn:Hl.
    + destruct c; try (by rewrite invoke_heap); simpl.
      * rewrite (bind_eq l ps w o' Hl). simpl.
        destruct (Nat.eqb_spec l this) as [->|Hne].
        -- rewrite list_lookup_insert_eq by (by eapply lookup_lt_Some).
           rewrite Ho in Hl. by injection Hl as <-.
        -- by rewrite list_lookup_insert_ne.
      * rewrite (finalize_eq l w o' Hl). simpl.
        destruct (Nat.eqb_spec l this) as [->|Hne].
        -- rewrite list_lookup_insert_eq by (by eapply lookup_lt_Some).
           rewrite Ho in Hl. by injection Hl as <-.
        -- by rewrite list_lookup_insert_ne.
    + rewrite dangling_receiver by done.
      destruct c; try done; destruct (Nat.eqb_spec l this) as [->|]; try done;
        rewrite Ho in Hl; discriminate Hl.
  - by apply lookup_app_l_Some.
  - exact Ho.
  - by rewrite run_eq.
  - by rewrite get_eq, query_eq.
  - by rewrite query_eq.
Qed.

Lemma after_host acts : ∀ w, host (after acts w) = host w.
Proof.
  induction acts as [|a acts IH]; intros w; [reflexivity|].
  simpl. fold (after acts (perform a w)). by rewrite IH, perform_host.
Qed.

(** ** Finalizing *)

Lemma cleared_stays_cleared this acts :
  ∀ w o, heap w !! this = Some o → sql o = EmptyString →
    ∃ o', heap (after acts w) !! this = Some o' ∧ sql o' = EmptyString.
Proof.
  induction acts as [|a acts IH]; intros w o Ho Hsql; [by exists o|].
  simpl. fold (after acts (perform a w)).
  eapply IH; [by apply perform_statement|].
  destruct a as [l [ps| | | | | |]| | | | |]; try done; by destruct (Nat.eqb l this).
Qed.

(** C6: for every statement, whatever its SQL text and parameters,
    [finalize()] returns the statement with its SQL text set to the empty
    string and its parameter list to the empty list, and every [toString()]
    called afterwards, after any further calls on any statement or database,
    returns the empty string. *)
Theorem finalize_clears w this o :
  heap w !! this = Some o →
  ∃ w',
    Statements_finalize this w = (Normal this, w')
    ∧ heap w' !! this = Some {| db := db o; sql := EmptyString; params := [] |}
    ∧ fst (Statements_toString this w') = Normal EmptyString
    ∧ ∀ acts, fst (Statements_toString this (after acts w')) = Normal EmptyString.
Proof.
  intros Ho.
  set (cleared := {| db := db o; sql := EmptyString; params := [] |}).
  set (w' := mkWorld (host w) (sent w) (<[this := cleared]> (heap w))).
  assert (heap w' !! this = Some cleared) as Hcleared.
  { apply list_lookup_insert_eq. by eapply lookup_lt_Some. }
  assert (∀ acts, fst (Statements_toString this (after acts w')) = Normal EmptyString)
    as Hlater.
  { intros acts.
    destruct (cleared_stays_cleared this acts w' cleared Hcleared eq_refl)
      as (o' & Ho' & Hsql).
    unfold Statements_toString. unfold_m. rewrite Ho'. simpl. by rewrite Hsql. }
  exists w'. split; [by apply finalize_eq|]. split; [exact Hcleared|].
  split; [exact (Hlater [])|exact Hlater].
Qed.

Lemma finalize_clears_witness :
  fst (Statements_toString 0%nat
         (after [OnStatement 0%nat (CallBind [JNumber 3]); OnStatement 0%nat CallRun]
            (snd (Statements_finalize 0%nat
                    (statement_world (Responded (mkResponse 200 (Normal change_summary)))
                       select_statement)))))
  = Normal EmptyString.
Proof.
  destruct (finalize_clears
              (statement_world (Responded (mkResponse 200 (Normal change_summary)))
                 select_statement)
              0%nat select_statement eq_refl) as (w' & Hfin & _ & _ & Hlater).
  rewrite Hfin. exact (Hlater _).
Defined.

(** ** Binding parameters *)

Lemma binding_kept this acts :
  ∀ w o, heap w !! this = Some o →
    Forall (λ a, rebinds this a = false ∧ finalizes this a = false) acts →
    heap (after acts w) !! this = Some o.
Proof.
  induction acts as [|a acts IH]; intros w o Ho Hacts; [exact Ho|].
  apply Forall_cons in Hacts as [[Hbind Hfin] Hacts].
  simpl. fold (after acts (perform a w)). apply IH; [|exact Hacts].
  rewrite (perform_statement this a w o Ho).
  destruct a as [l [ps| | | | | |]| | | | |]; try done; simpl in *.
  - by rewrite Hbind.
  - by rewrite Hfin.
Qed.

(** C7, as stated, fails: [finalize] also replaces the parameter list.
    After [bind(1)] and [finalize()], with no further [bind], the statement
    holds the empty parameter list, and [run()] sends the empty SQL text
    with no parameters. *)
Lemma finalize_drops_bound_params :
  bound_params 0%nat
    (after [OnStatement 0%nat CallFinalize]
       (snd (Statements_bind 0%nat [JNumber 1]
               (statement_world (Responded (mkResponse 200 (Normal change_summary)))
                  select_statement))))
  = Some []
  ∧ sent (after [OnStatement 0%nat (CallBind [JNumber 1]);
                 OnStatement 0%nat CallFinalize;
                 OnStatement 0%nat CallRun]
            (statement_world (Responded (mkResponse 200 (Normal change_summary)))
               select_statement))
    = [{| url := "http://localhost:4001/db/execute";
          method := "POST";
          headers := [("Content-Type", "application/json")];
          body := render (JObject [("sql", JString EmptyString); ("params", JArray [])]) |}]
  ∧ ¬ bound_until_rebound.
Proof.
  split; [reflexivity|]. split; [reflexivity|].
  intros Hclaim.
  specialize (Hclaim (statement_world (Responded (mkResponse 200 (Normal change_summary)))
                        select_statement)
                     0%nat select_statement [JNumber 1]
                     [OnStatement 0%nat CallFinalize] eq_refl).
  discriminate Hclaim. by repeat constructor.
Qed.

(** C7, amended: once [bind(p1, ..., pn)] has been called on a statement,
    the statement holds exactly that parameter list, with its SQL text
    unchanged, after any further calls that neither [bind] nor [finalize]
    that statement; each execution by [all()], [get()], [run()] or
    [values()] then sends one request carrying that SQL text and exactly
    that parameter list; and an execution, in any state, leaves every
    statement as it was. *)
Theorem bound_params_reused w this o ps acts c :
  heap w !! this = Some o →
  Forall (λ a, rebinds this a = false ∧ finalizes this a = false) acts →
  is_execution c = true →
  let w1 := after acts (snd (Statements_bind this ps w)) in
  heap w1 !! this = Some {| db := db o; sql := sql o; params := ps |}
  ∧ bound_params this w1 = Some ps
  ∧ sent (invoke this c w1)
    = sent w1 ++ [{| url := baseUrl (db o) +:+ "/db/execute";
                     method := "POST";
                     headers := [("Content-Type", "application/json")];
                     body := JSON_stringify (host w)
                               (JObject [("sql", JString (sql o)); ("params", JArray ps)]) |}]
  ∧ ∀ w2, heap (invoke this c w2) = heap w2.
Proof.
  intros Ho Hacts Hc w1.
  assert (heap w1 !! this = Some {| db := db o; sql := sql o; params := ps |}) as Hw1.
  { subst w1. apply binding_kept; [|exact Hacts].
    rewrite (bind_eq this ps w o Ho). simpl.
    apply list_lookup_insert_eq. by eapply lookup_lt_Some. }
  assert (host w1 = host w) as Hhost.
  { subst w1. rewrite after_host. by rewrite (bind_eq this ps w o Ho). }
  split; [exact Hw1|]. split; [unfold bound_params; by rewrite Hw1|]. split.
  - rewrite (execution_eq this c w1 _ Hw1 Hc). simpl. by rewrite Hhost.
  - intros w2. apply invoke_heap. by destruct c.
Qed.

Lemma bound_params_reused_witness :
  sent (invoke 0%nat CallValues
          (after [OnStatement 0%nat CallAll; OnStatement 0%nat CallToString]
             (snd (Statements_bind 0%nat [JNumber 1]
                     (statement_world (Responded (mkResponse 200 (Normal two_rows)))
                        select_statement)))))
  = sent (after [OnStatement 0%nat CallAll; OnStatement 0%nat CallToString]
            (snd (Statements_bind 0%nat [JNumber 1]
                    (statement_world (Responded (mkResponse 200 (Normal two_rows)))
                       select_statement))))
    ++ [{| url := "http://localhost:4001/db/execute";
           method := "POST";
           headers := [("Content-Type", "application/json")];
           body := render (JObject [("sql", JString "SELECT id, name FROM t WHERE id > ?");
                                    ("params", JArray [JNumber 1])]) |}].
Proof.
  refine (proj1 (proj2 (proj2 (bound_params_reused
            (statement_world (Responded (mkResponse 200 (Normal two_rows))) select_statement)
            0%nat select_statement [JNumber 1]
            [OnStatement 0%nat CallAll; OnStatement 0%nat CallToString]
            CallValues eq_refl _ eq_refl)))).
  repeat constructor.
Defined.

(** * Further properties of the two classes *)

(** ** Creation and independence of statements *)

(** X1: [new Statements(db, sql)] returns a reference that no statement had
    before; the new statement holds the given database and SQL text and an
    empty parameter list, so [toString()] gives the SQL text back; the
    statements that exist keep their state and no request is sent. *)
Theorem constructor_allocates_fresh d s w :
  ∃ l w',
    Statements_constructor d s w = (Normal l, w')
    ∧ heap w !! l = None
    ∧ heap w' !! l = Some {| db := d; sql := s; params := [] |}
    ∧ (∀ l' o, heap w !! l' = Some o → heap w' !! l' = Some o)
    ∧ sent w' = sent w
    ∧ fst (Statements_toString l w') = Normal s.
Proof.
  exists (length (heap w)), (mkWorld (host w) (sent w)
                               (heap w ++ [{| db := d; sql := s; params := [] |}])).
  assert ((heap w ++ [{| db := d; sql := s; params := [] |}]) !! length (heap w)
          = Some {| db := d; sql := s; params := [] |}) as Hnew.
  { rewrite lookup_app_r by lia. by rewrite Nat.sub_diag. }
  split; [reflexivity|]. split; [by apply lookup_ge_None_2|].
  split; [exact Hnew|]. split; [|split; [reflexivity|]].
  - intros l' o Ho. by apply lookup_app_l_Some.
  - unfold Statements_toString. unfold_m. simpl. by rewrite Hnew.
Qed.

(** X2: a call on one statement never changes another statement: whatever
    method is called on [l], the state of a different statement [this] is
    what it was. *)
Theorem statements_are_independent l this c w :
  l ≠ this →
  heap (invoke l c w) !! this = heap w !! this.
Proof.
  intros Hne. destruct (heap w !! l) as [o|] eqn:Hl; [|by rewrite dangling_receiver].
  destruct c; try (by rewrite invoke_heap); simpl.
  - rewrite (bind_eq l ps w o Hl). simpl. by apply list_lookup_insert_ne.
  - rewrite (finalize_eq l w o Hl). simpl. by apply list_lookup_insert_ne.
Qed.

Lemma statements_are_independent_witness :
  heap (invoke 0%nat CallFinalize
          (mkWorld (stub_host (Rejected JNull)) [] [select_statement; insert_statement]))
    !! 1%nat
  = Some insert_statement.
Proof.
  rewrite (statements_are_independent 0%nat 1%nat CallFinalize
             (mkWorld (stub_host (Rejected JNull)) [] [select_statement; insert_statement]));
    [reflexivity | lia].
Defined.

(** ** [bind] *)

(** X3: [bind] replaces the parameter list, it does not add to it: binding
    twice leaves the statement, and the whole state, as binding the second
    list alone does. *)
Theorem bind_overwrites this ps1 ps2 w o :
  heap w !! this = Some o →
  snd (Statements_bind this ps2 (snd (Statements_bind this ps1 w)))
  = snd (Statements_bind this ps2 w).
Proof.
  intros Ho. rewrite (bind_eq this ps1 w o Ho). simpl.
  erewrite bind_eq; [|simpl; apply list_lookup_insert_eq; by eapply lookup_lt_Some].
  rewrite (bind_eq this ps2 w o Ho). simpl. by rewrite list_insert_insert_eq.
Qed.

Lemma bind_overwrites_witness :
  heap (snd (Statements_bind 0%nat [JNumber 2]
               (snd (Statements_bind 0%nat [JNumber 1; JString "x"]
                       (statement_world (Rejected JNull) select_statement)))))
  = [{| db := localhost; sql := "SELECT id, name FROM t WHERE id > ?";
        params := [JNumber 2] |}].
Proof.
  rewrite (bind_overwrites 0%nat [JNumber 1; JString "x"] [JNumber 2]
             (statement_world (Rejected JNull) select_statement) select_statement eq_refl).
  reflexivity.
Defined.

(** X4: [bind] returns the statement itself, so a call can be chained on
    its result: [stmt.bind(...ps).run()] completes as [db.run(sql, ps)] does
    with the statement's database and SQL text, and so do [all()] with
    [db.query] and [get()] with [db.get]; the statement keeps the bound
    list. *)
Theorem bind_then_execute this ps w o :
  heap w !! this = Some o →
  let bound := mkWorld (host w) (sent w)
                 (<[this := {| db := db o; sql := sql o; params := ps |}]> (heap w)) in
  (l ← Statements_bind this ps; Statements_run l) w
    = RqliteDatabase_run (db o) (sql o) ps bound
  ∧ (l ← Statements_bind this ps; Statements_all l) w
    = RqliteDatabase_query (db o) (sql o) ps bound
  ∧ (l ← Statements_bind this ps; Statements_get l) w
    = RqliteDatabase_get (db o) (sql o) ps bound.
Proof.
  intros Ho bound.
  assert (heap bound !! this = Some {| db := db o; sql := sql o; params := ps |}) as Hb.
  { apply list_lookup_insert_eq. by eapply lookup_lt_Some. }
  repeat split; unfold mbind at 1, M_bind; rewrite (bind_eq this ps w o Ho); fold bound;
    unfold Statements_run, Statements_all, Statements_get; unfold_m; by rewrite Hb.
Qed.

Lemma bind_then_execute_witness :
  fst ((l ← Statements_bind 0%nat [JNumber 9]; Statements_run l)
         (statement_world (Responded (mkResponse 200 (Normal change_summary)))
            insert_statement))
  = Normal change_summary.
Proof.
  destruct (bind_then_execute 0%nat [JNumber 9]
              (statement_world (Responded (mkResponse 200 (Normal change_summary)))
                 insert_statement)
              insert_statement eq_refl) as [Hrun _].
  rewrite Hrun. reflexivity.
Defined.

(** ** [finalize] *)

(** X5: [finalize] is idempotent and forgets any binding: finalizing twice,
    or binding and then finalizing, leaves the state that finalizing once
    leaves. *)
Theorem finalize_idempotent this w o :
  heap w !! this = Some o →
  snd (Statements_finalize this (snd (Statements_finalize this w)))
    = snd (Statements_finalize this w)
  ∧ ∀ ps, snd (Statements_finalize this (snd (Statements_bind this ps w)))
          = snd (Statements_finalize this w).
Proof.
  intros Ho. rewrite (finalize_eq this w o Ho). split.
  - erewrite finalize_eq; [|simpl; apply list_lookup_insert_eq; by eapply lookup_lt_Some].
    simpl. by rewrite list_insert_insert_eq.
  - intros ps. rewrite (bind_eq this ps w o Ho).
    erewrite finalize_eq; [|simpl; apply list_lookup_insert_eq; by eapply lookup_lt_Some].
    simpl. by rewrite list_insert_insert_eq.
Qed.

Lemma finalize_idempotent_witness :
  heap (snd (Statements_finalize 0%nat
               (snd (Statements_finalize 0%nat
                       (statement_world (Rejected JNull) select_statement)))))
  = [{| db := localhost; sql := EmptyString; params := [] |}].
Proof.
  rewrite (proj1 (finalize_idempotent 0%nat
                    (statement_world (Rejected JNull) select_statement)
                    select_statement eq_refl)).
  reflexivity.
Defined.

(** X6: a finalized statement can still be executed: [finalize] installs no
    guard, and [all()], [get()], [run()] or [values()] called after it sends
    one request, to the same database, with the empty SQL text and no
    parameters. *)
Theorem finalized_statement_still_executes this c w o :
  heap w !! this = Some o →
  is_execution c = true →
  sent (invoke this c (snd (Statements_finalize this w)))
  = sent w ++ [{| url := baseUrl (db o) +:+ "/db/execute";
                  method := "POST";
                  headers := [("Content-Type", "application/json")];
                  body := JSON_stringify (host w)
                            (JObject [("sql", JString EmptyString);
                                      ("params", JArray [])]) |}].
Proof.
  intros Ho Hc. rewrite (finalize_eq this w o Ho).
  rewrite (execution_eq this c _ {| db := db o; sql := EmptyString; params := [] |});
    [reflexivity | simpl; apply list_lookup_insert_eq; by eapply lookup_lt_Some | exact Hc].
Qed.

Lemma finalized_statement_still_executes_witness :
  sent (invoke 0%nat CallAll
          (snd (Statements_finalize 0%nat
                  (statement_world (Responded (mkResponse 200 (Normal two_rows)))
                     select_statement))))
  = [{| url := "http://localhost:4001/db/execute";
        method := "POST";
        headers := [("Content-Type", "application/json")];
        body := render (JObject [("sql", JString EmptyString); ("params", JArray [])]) |}].
Proof.
  exact (finalized_statement_still_executes 0%nat CallAll
           (statement_world (Responded (mkResponse 200 (Normal two_rows))) select_statement)
           select_statement eq_refl eq_refl).
Defined.

(** ** The request log *)

Lemma execute_request_shape h d s ps : is_execute_post (execute_request h d s ps).
Proof. repeat split. by exists (baseUrl d). Qed.

Lemma perform_sent a w :
  ∃ more, sent (perform a w) = sent w ++ more
          ∧ (length more ≤ 1)%nat
          ∧ (is_local a = true → more = [])
          ∧ Forall is_execute_post more.
Proof.
  assert (∀ req, is_execute_post req →
            ∃ more, sent w ++ [req] = sent w ++ more ∧ (length more ≤ 1)%nat
                    ∧ (false = true → more = []) ∧ Forall is_execute_post more) as Hone.
  { intros req Hreq. exists [req]. repeat split; [done|discriminate|by constructor]. }
  assert (∀ b : bool, ∃ more, sent w = sent w ++ more ∧ (length more ≤ 1)%nat
                    ∧ (b = true → more = []) ∧ Forall is_execute_post more) as Hzero.
  { intros b. exists []. rewrite app_nil_r. repeat split; [simpl; lia|constructor]. }
  destruct a as [l c| | | | |]; simpl.
  - destruct (heap w !! l) as [o|] eqn:Hl; [|rewrite dangling_receiver by done; apply Hzero].
    destruct c; try (rewrite (execution_eq _ _ _ _ Hl) by reflexivity; simpl;
                     apply Hone, execute_request_shape); simpl.
    + rewrite (bind_eq l ps w o Hl). apply Hzero.
    + rewrite (finalize_eq l w o Hl). apply Hzero.
    + unfold Statements_toString. unfold_m. rewrite Hl. apply Hzero.
  - apply Hzero.
  - apply Hzero.
  - rewrite run_eq. apply Hone, execute_request_shape.
  - rewrite get_eq, query_eq. apply Hone, execute_request_shape.
  - rewrite query_eq. apply Hone, execute_request_shape.
Qed.

(** X7: only executions reach the network.  Creating a statement, [bind],
    [finalize], [toString] and [prepare] send no request, whatever state
    they are called in. *)
Theorem local_steps_send_nothing a w :
  is_local a = true →
  sent (perform a w) = sent w.
Proof.
  intros Hlocal. destruct (perform_sent a w) as (more & Hsent & _ & Hnone & _).
  rewrite Hsent, (Hnone Hlocal). apply app_nil_r.
Qed.

Lemma local_steps_send_nothing_witness :
  sent (perform (OnStatement 0%nat (CallBind [JNumber 4]))
          (statement_world (Responded (mkResponse 200 (Normal two_rows))) select_statement))
  = [].
Proof.
  exact (local_steps_send_nothing (OnStatement 0%nat (CallBind [JNumber 4]))
           (statement_world (Responded (mkResponse 200 (Normal two_rows))) select_statement)
           eq_refl).
Defined.

(** X8: the log of requests only grows, by at most one request per call,
    and every request the two classes ever send is a POST with a JSON
    content type to the [/db/execute] path of some base URL: after any
    sequence of calls the requests sent before are still there, in order,
    followed by at most as many new ones as there were calls. *)
Theorem request_log_append_only acts :
  ∀ w, ∃ more,
    sent (after acts w) = sent w ++ more
    ∧ (length more ≤ length acts)%nat
    ∧ Forall is_execute_post more.
Proof.
  induction acts as [|a acts IH]; intros w.
  - exists []. simpl. rewrite app_nil_r. repeat split; [lia|constructor].
  - simpl. fold (after acts (perform a w)).
    destruct (perform_sent a w) as (m1 & H1 & Hlen1 & _ & Hshape1).
    destruct (IH (perform a w)) as (m2 & H2 & Hlen2 & Hshape2).
    exists (m1 ++ m2). rewrite H2, H1, <- app_assoc. repeat split.
    + rewrite length_app. simpl. lia.
    + by apply Forall_app.
Qed.

(** X9: executing a statement repeatedly repeats the request: as many
    executions as one likes, by any of [all()], [get()], [run()] and
    [values()], send that many copies of one request, carrying the
    statement's SQL text and parameter list, whatever the remote end
    answers. *)
Theorem repeated_executions_repeat_request this o cs :
  Forall (λ c, is_execution c = true) cs →
  ∀ w, heap w !! this = Some o →
    sent (after (map (OnStatement this) cs) w)
    = sent w ++ repeat (execute_request (host w) (db o) (sql o) (params o)) (length cs)
    ∧ heap (after (map (OnStatement this) cs) w) = heap w.
Proof.
  induction 1 as [|c cs Hc _ IH]; intros w Ho.
  - simpl. by rewrite app_nil_r.
  - cbn [map after fold_left length repeat perform].
    fold (after (map (OnStatement this) cs) (invoke this c w)).
    rewrite (execution_eq this c w o Ho Hc).
    edestruct IH as [Hsent Hheap]; [|rewrite Hsent, Hheap]; [exact Ho|].
    simpl. by rewrite <- app_assoc.
Qed.

Lemma repeated_executions_repeat_request_witness :
  length (sent (after (map (OnStatement 0%nat) [CallRun; CallGet; CallValues])
                  (statement_world (Rejected (JString "offline")) insert_statement)))
  = 3%nat.
Proof.
  rewrite (proj1 (repeated_executions_repeat_request 0%nat insert_statement
                    [CallRun; CallGet; CallValues]
                    ltac:(repeat constructor)
                    (statement_world (Rejected (JString "offline")) insert_statement)
                    eq_refl)).
  reflexivity.
Defined.

(** ** [toString] *)

Lemma sql_kept this acts :
  ∀ w o, heap w !! this = Some o →
    Forall (λ a, finalizes this a = false) acts →
    ∃ o', heap (after acts w) !! this = Some o' ∧ sql o' = sql o ∧ db o' = db o.
Proof.
  induction acts as [|a acts IH]; intros w o Ho Hacts; [by exists o|].
  apply Forall_cons in Hacts as [Hfin Hacts].
  simpl. fold (after acts (perform a w)).
  pose proof (perform_statement this a w o Ho) as Hstep.
  edestruct (IH (perform a w)) as (o' & Ho' & Hsql & Hdb); [exact Hstep|exact Hacts|].
  exists o'. split; [exact Ho'|]. rewrite Hsql, Hdb.
  destruct a as [l [ps| | | | | |]| | | | |]; try done; simpl in *.
  - by destruct (Nat.eqb l this).
  - by rewrite Hfin.
Qed.

(** X10: the SQL text of a statement changes only by [finalize]: after any
    calls on any statement or database, among them binds and executions of
    the statement itself, but no [finalize] of it, [toString()] returns the
    SQL text the statement had. *)
Theorem toString_keeps_sql this o acts w :
  heap w !! this = Some o →
  Forall (λ a, finalizes this a = false) acts →
  fst (Statements_toString this (after acts w)) = Normal (sql o).
Proof.
  intros Ho Hacts. destruct (sql_kept this acts w o Ho Hacts) as (o' & Ho' & Hsql & _).
  unfold Statements_toString. unfold_m. rewrite Ho'. simpl. by rewrite Hsql.
Qed.

Lemma toString_keeps_sql_witness :
  fst (Statements_toString 0%nat
         (after [OnStatement 0%nat (CallBind [JNumber 7]); OnStatement 0%nat CallAll;
                 NewStatements localhost "DELETE FROM t"; OnStatement 1%nat CallFinalize]
            (statement_world (Responded (mkResponse 200 (Normal two_rows))) select_statement)))
  = Normal "SELECT id, name FROM t WHERE id > ?".
Proof.
  refine (toString_keeps_sql 0%nat select_statement _
            (statement_world (Responded (mkResponse 200 (Normal two_rows))) select_statement)
            eq_refl _).
  repeat constructor.
Defined.

(** ** [values] on rows of any kind *)

Lemma first_value_total row :
  nullish row = false → ∃ v, first_value row = Normal v.
Proof. destruct row; try discriminate; intros _; eexists; reflexivity. Qed.

Lemma first_value_nullish row :
  nullish row = true → first_value row = Abrupt TypeError.
Proof. by destruct row. Qed.

Lemma first_value_fails_with_TypeError row t :
  first_value row = Abrupt t → t = TypeError.
Proof. destruct row; cbn; intros H; by inversion H. Qed.

Lemma map_first_value_total rs :
  Forall (λ row, nullish row = false) rs →
  ∃ out, map_elements first_value rs = Normal out
         ∧ length out = length rs
         ∧ ∀ (i : nat) row, rs !! i = Some row →
             ∃ v, first_value row = Normal v ∧ out !! i = Some v.
Proof.
  induction 1 as [|row rest Hrow _ (out & Hout & Hlen & Hnth)].
  - exists []. repeat split. intros i row Hi. discriminate Hi.
  - destruct (first_value_total row Hrow) as [v Hv].
    exists (v :: out). cbn [map_elements]. rewrite Hv, Hout. repeat split.
    + simpl. by rewrite Hlen.
    + intros [|i] row' Hi; simpl in *.
      * injection Hi as <-. by exists v.
      * by apply Hnth.
Qed.

Lemma map_first_value_nullish rs :
  Exists (λ row, nullish row = true) rs →
  map_elements first_value rs = Abrupt TypeError.
Proof.
  induction 1 as [row rest Hrow|row rest _ IH]; cbn [map_elements].
  - by rewrite (first_value_nullish row Hrow).
  - destruct (first_value row) as [v|t] eqn:Hv.
    + simpl. unfold mbind, Completion_bind. by rewrite IH.
    + simpl. by rewrite (first_value_fails_with_TypeError row t Hv).
Qed.

(** X11: [values()] gives one entry per row.  When [all()] returns rows
    none of which is [null] or [undefined], [values()] completes normally,
    in the state [all()] leaves, with an array as long as the list of rows,
    whose i-th entry is the first of [Object.values] of the i-th row; the
    rows need not be objects. *)
Theorem values_one_entry_per_row this w rs w' :
  Statements_all this w = (Normal (JArray rs), w') →
  Forall (λ row, nullish row = false) rs →
  ∃ out,
    Statements_values this w = (Normal (JArray out), w')
    ∧ length out = length rs
    ∧ ∀ (i : nat) row, rs !! i = Some row →
        ∃ v, first_value row = Normal v ∧ out !! i = Some v.
Proof.
  intros Hall Hrows. destruct (map_first_value_total rs Hrows) as (out & Hout & Hlen & Hnth).
  exists out. split; [|by split].
  unfold Statements_values. unfold mbind at 1, M_bind. rewrite Hall.
  unfold lift, Array_map. by rewrite Hout.
Qed.

Lemma values_one_entry_per_row_witness :
  ∃ out,
    Statements_values 0%nat
      (statement_world (Responded (mkResponse 200 (Normal mixed_rows))) select_statement)
    = (Normal (JArray out),
       snd (Statements_all 0%nat
              (statement_world (Responded (mkResponse 200 (Normal mixed_rows)))
                 select_statement)))
    ∧ length out = 3%nat.
Proof.
  destruct (values_one_entry_per_row 0%nat
              (statement_world (Responded (mkResponse 200 (Normal mixed_rows)))
                 select_statement)
              [JObject [("id", JNumber 1)]; JNumber 5; JArray [JString "x"]]
              _ eq_refl ltac:(repeat constructor)) as (out & Hvalues & Hlen & _).
  exists out. by split.
Defined.

(** X12: a [null] or [undefined] among the rows makes [values()] fail:
    when [all()] returns rows one of which is [null] or [undefined],
    [values()] throws a TypeError, wherever in the list that row is, and no
    partial result is returned. *)
Theorem values_throws_on_nullish_row this w rs w' :
  Statements_all this w = (Normal (JArray rs), w') →
  Exists (λ row, nullish row = true) rs →
  Statements_values this w = (Abrupt TypeError, w').
Proof.
  intros Hall Hrows.
  unfold Statements_values. unfold mbind at 1, M_bind. rewrite Hall.
  unfold lift, Array_map. by rewrite (map_first_value_nullish rs Hrows).
Qed.

Lemma values_throws_on_nullish_row_witness :
  fst (Statements_values 0%nat
         (statement_world (Responded (mkResponse 200 (Normal rows_with_null)))
            select_statement))
  = Abrupt TypeError.
Proof.
  rewrite (values_throws_on_nullish_row 0%nat
             (statement_world (Responded (mkResponse 200 (Normal rows_with_null)))
                select_statement)
             [JObject [("id", JNumber 1)]; JNull] _ eq_refl);
    [reflexivity|].
  apply Exists_cons_tl, Exists_cons_hd. reflexivity.
Defined.

(** X13: [values()] has no result without a list of rows.  When [all()]
    fails, [values()] fails with the same reason; when [all()] returns
    something that is not an array, as for a response without a [rows]
    member, [values()] throws a TypeError.  In both cases the request has
    been sent: the state is the one [all()] leaves. *)
Theorem values_needs_rows this w w' :
  (∀ t, Statements_all this w = (Abrupt t, w') →
     Statements_values this w = (Abrupt t, w'))
  ∧ (∀ v, Statements_all this w = (Normal v, w') → is_array v = false →
     Statements_values this w = (Abrupt TypeError, w')).
Proof.
  split.
  - intros t Hall. unfold Statements_values. unfold mbind at 1, M_bind. by rewrite Hall.
  - intros v Hall Hv. unfold Statements_values. unfold mbind at 1, M_bind. rewrite Hall.
    by destruct v.
Qed.

Lemma values_needs_rows_witness :
  Statements_values 0%nat
    (statement_world (Responded (mkResponse 200 (Normal change_summary))) insert_statement)
  = (Abrupt TypeError,
     snd (Statements_all 0%nat
            (statement_world (Responded (mkResponse 200 (Normal change_summary)))
               insert_statement)))
  ∧ fst (Statements_values 0%nat
           (statement_world (Rejected (JString "offline")) insert_statement))
    = Abrupt (Rejection (JString "offline")).
Proof.
  split.
  - exact (proj2 (values_needs_rows 0%nat
                    (statement_world (Responded (mkResponse 200 (Normal change_summary)))
                       insert_statement) _)
                 JUndefined eq_refl eq_refl).
  - rewrite (proj1 (values_needs_rows 0%nat
                      (statement_world (Rejected (JString "offline")) insert_statement) _)
                   _ eq_refl).
    reflexivity.
Defined.

(** ** [query] on documents without rows *)

(** X14: [query] checks nothing about the response document.  For a
    document that is [null] it throws a TypeError; for any other document
    it completes normally, and for an object without a [rows] member it
    returns [undefined], not an empty list. *)
Theorem query_does_not_validate w this s ps r j :
  respond (host w) (sent w) (execute_request (host w) this s ps) = Responded r →
  json r = Normal j →
  (nullish j = true → fst (RqliteDatabase_query this s ps w) = Abrupt TypeError)
  ∧ (nullish j = false → ∃ v, fst (RqliteDatabase_query this s ps w) = Normal v)
  ∧ (∀ members, j = JObject members → own_member "rows" members = None →
       fst (RqliteDatabase_query this s ps w) = Normal JUndefined).
Proof.
  intros Hresp Hjson. rewrite query_eq, Hresp. simpl. rewrite Hjson. simpl.
  split; [|split].
  - by destruct j.
  - destruct j; try discriminate; intros _; eexists; reflexivity.
  - intros members -> Hnone. simpl. by rewrite Hnone.
Qed.

Lemma query_does_not_validate_witness :
  fst (RqliteDatabase_query localhost "DELETE FROM t" []
         (stub_world (Responded (mkResponse 200 (Normal change_summary)))))
  = Normal JUndefined
  ∧ fst (RqliteDatabase_query localhost "DELETE FROM t" []
           (stub_world (Responded (mkResponse 200 (Normal JNull)))))
    = Abrupt TypeError.
Proof.
  split.
  - destruct (query_does_not_validate
                (stub_world (Responded (mkResponse 200 (Normal change_summary))))
                localhost "DELETE FROM t" [] (mkResponse 200 (Normal change_summary))
                change_summary eq_refl eq_refl) as (_ & _ & Hmissing).
    exact (Hmissing _ eq_refl eq_refl).
  - destruct (query_does_not_validate
                (stub_world (Responded (mkResponse 200 (Normal JNull))))
                localhost "DELETE FROM t" [] (mkResponse 200 (Normal JNull))
                JNull eq_refl eq_refl) as (Hnull & _).
    exact (Hnull eq_refl).
Defined.

(** ** A statement and its database *)

Lemma database_kept this acts :
  ∀ w o, heap w !! this = Some o →
    ∃ o', heap (after acts w) !! this = Some o' ∧ db o' = db o.
Proof.
  induction acts as [|a acts IH]; intros w o Ho; [by exists o|].
  simpl. fold (after acts (perform a w)).
  edestruct (IH (perform a w)) as (o' & Ho' & Hdb); [by apply perform_statement|].
  exists o'. split; [exact Ho'|]. rewrite Hdb.
  destruct a as [l [ps| | | | | |]| | | | |]; try done; by destruct (Nat.eqb l this).
Qed.

(** X15: a statement stays attached to the database it was created with.
    After any calls whatever, [bind] and [finalize] of the statement
    included, the statement still exists, and an execution of it sends its
    one request to the [/db/execute] path of that database's base URL. *)
Theorem statement_keeps_database this o acts c w :
  heap w !! this = Some o →
  is_execution c = true →
  ∃ o' req,
    heap (after acts w) !! this = Some o'
    ∧ db o' = db o
    ∧ sent (invoke this c (after acts w)) = sent (after acts w) ++ [req]
    ∧ url req = baseUrl (db o) +:+ "/db/execute".
Proof.
  intros Ho Hc. destruct (database_kept this acts w o Ho) as (o' & Ho' & Hdb).
  exists o', (execute_request (host (after acts w)) (db o') (sql o') (params o')).
  split; [exact Ho'|]. split; [exact Hdb|]. split.
  - by rewrite (execution_eq this c _ o' Ho' Hc).
  - simpl. by rewrite Hdb.
Qed.

Lemma statement_keeps_database_witness :
  ∃ o' req,
    heap (after [OnStatement 0%nat CallFinalize; OnStatement 0%nat (CallBind [JNull])]
            (statement_world (Rejected JNull) select_statement)) !! 0%nat = Some o'
    ∧ db o' = localhost
    ∧ sent (invoke 0%nat CallRun
              (after [OnStatement 0%nat CallFinalize; OnStatement 0%nat (CallBind [JNull])]
                 (statement_world (Rejected JNull) select_statement)))
      = sent (after [OnStatement 0%nat CallFinalize; OnStatement 0%nat (CallBind [JNull])]
                (statement_world (Rejected JNull) select_statement)) ++ [req]
    ∧ url req = "http://localhost:4001/db/execute".
Proof.
  exact (statement_keeps_database 0%nat select_statement
           [OnStatement 0%nat CallFinalize; OnStatement 0%nat (CallBind [JNull])]
           CallRun (statement_world (Rejected JNull) select_statement) eq_refl eq_refl).
Defined.
